(** * OpenRAM configuration module [sram_config.py]

    The artifact is a Python module made of top-level assignment
    statements.  The external generator executes the module body once and
    then reads the resulting module namespace by name.  We embed

    - the fragment of Python the module is written in (literals, list
      displays, one formatted string literal, assignment statements),
    - its evaluation as a function on the module namespace, with
      [NameError] as the exception an unbound name raises,
    - the module body itself, statement by statement in source order,

    and prove the properties the specification states about it. *)

From Stdlib Require Import ZArith Ascii Floats.PrimFloat.
From stdpp Require Import gmap strings list fin_maps pretty.

Set Warnings "-inexact-float,-register-all".
Local Open Scope Z_scope.

(** ** The Python fragment *)

Module Py.

(** Run-time values: [int] is unbounded, [float] is IEEE binary64,
    a list display evaluates to a list of values. *)
Inductive value : Type :=
| VInt (n : Z)
| VFloat (f : float)
| VBool (b : bool)
| VStr (s : string)
| VList (vs : list value).

(** The pieces of a formatted string literal [f"..."]: literal text and
    replacement fields [{name}] (no conversion, no format spec). *)
Inductive fpart : Type :=
| FText (s : string)
| FField (x : string).

Inductive expr : Type :=
| EInt (n : Z)
| EFloat (f : float)
| EBool (b : bool)
| EStr (s : string)
| EList (es : list expr)
| EFString (parts : list fpart).

(** [target = expression] is the only statement form of the module. *)
Inductive stmt : Type :=
| Assign (target : string) (e : expr).

Definition stmt_target (s : stmt) : string :=
  match s with Assign x _ => x end.

Definition stmt_expr (s : stmt) : expr :=
  match s with Assign _ e => e end.

(** Exceptions.  [NameError] is Python's; [Unmodelled] marks the one
    place where this embedding stops short of Python: the text that
    [format] produces for a float or a list is not modelled. *)
Inductive exn : Type :=
| NameError (x : string)
| Unmodelled.

Inductive result (A : Type) : Type :=
| Ok (a : A)
| Raise (e : exn).
Arguments Ok {A} a.
Arguments Raise {A} e.

(** Sequencing: an exception propagates, a value is passed on. *)
Global Instance result_bind : MBind result := λ A B k m,
  match m with
  | Ok a => k a
  | Raise e => Raise e
  end.

End Py.

Import Py.

(** The module namespace: a dictionary from names to values. *)
Abbreviation env := (gmap string value).

(** ** Evaluation *)

(** [format(n, "")] for an [int]: decimal digits, with a leading minus
    sign for negative numbers. *)
Definition format_int (n : Z) : string := pretty n.

(** [format(v, "")] as a replacement field applies it. *)
Definition format_value (v : value) : result string :=
  match v with
  | VInt n => Ok (format_int n)
  | VBool true => Ok "True"%string
  | VBool false => Ok "False"%string
  | VStr s => Ok s
  | VFloat _ | VList _ => Raise Unmodelled
  end.

(** A name is looked up in the module namespace; an unbound name raises
    [NameError]. *)
Definition lookup_name (ρ : env) (x : string) : result value :=
  match ρ !! x with
  | Some v => Ok v
  | None => Raise (NameError x)
  end.

(** The parts of a formatted string literal are evaluated left to right
    and their texts joined. *)
Fixpoint eval_fstring (ρ : env) (parts : list fpart) : result string :=
  match parts with
  | [] => Ok ""%string
  | FText s :: parts =>
      rest ← eval_fstring ρ parts; Ok (s +:+ rest)
  | FField x :: parts =>
      v ← lookup_name ρ x;
      s ← format_value v;
      rest ← eval_fstring ρ parts;
      Ok (s +:+ rest)
  end.

Fixpoint eval (ρ : env) (e : expr) : result value :=
  match e with
  | EInt n => Ok (VInt n)
  | EFloat f => Ok (VFloat f)
  | EBool b => Ok (VBool b)
  | EStr s => Ok (VStr s)
  | EList es =>
      vs ← (fix eval_items (es : list expr) : result (list value) :=
              match es with
              | [] => Ok []
              | e :: es =>
                  v ← eval ρ e; vs ← eval_items es; Ok (v :: vs)
              end) es;
      Ok (VList vs)
  | EFString parts =>
      s ← eval_fstring ρ parts; Ok (VStr s)
  end.

(** An assignment evaluates its right-hand side and binds the target. *)
Definition exec_stmt (ρ : env) (s : stmt) : result env :=
  match s with
  | Assign x e => v ← eval ρ e; Ok (<[x := v]> ρ)
  end.

(** The module body runs its statements in order; the first exception
    aborts the run. *)
Fixpoint exec_stmts (body : list stmt) (ρ : env) : result env :=
  match body with
  | [] => Ok ρ
  | s :: body => ρ' ← exec_stmt ρ s; exec_stmts body ρ'
  end.

(** Loading a module executes its body in a fresh namespace. *)
Definition load (body : list stmt) : result env := exec_stmts body ∅.

(** Executing only the first [n] statements: the namespace reached and
    the statements still to run.  Past the end nothing is left to do. *)
Fixpoint run (n : nat) (ρ : env) (body : list stmt) : result (env * list stmt) :=
  match n, body with
  | O, _ => Ok (ρ, body)
  | S _, [] => Ok (ρ, [])
  | S n, s :: body => ρ' ← exec_stmt ρ s; run n ρ' body
  end.

(** ** Static structure *)

(** The names an expression reads. *)
Definition fpart_names (p : fpart) : list string :=
  match p with
  | FText _ => []
  | FField x => [x]
  end.

Fixpoint names_read (e : expr) : list string :=
  match e with
  | EInt _ | EFloat _ | EBool _ | EStr _ => []
  | EList es => flat_map names_read es
  | EFString parts => flat_map fpart_names parts
  end.

(** The names a body assigns, in source order. *)
Definition targets (body : list stmt) : list string := stmt_target <$> body.

(** The fields whose value is computed from other names. *)
Definition derived_fields (body : list stmt) : list string :=
  stmt_target <$>
    filter (λ s, names_read (stmt_expr s) ≠ []) body.

(** ** The module body *)

(** Right-hand side of [output_name]:
    [f"sram_{word_size}x{num_words}_{num_banks}bank"]. *)
Definition output_name_expr : expr :=
  EFString [FText "sram_"; FField "word_size"; FText "x";
            FField "num_words"; FText "_"; FField "num_banks";
            FText "bank"].

(** The module body, with the four values of its "CONFIGURE YOUR SRAM"
    block left open: these are the numbers the file asks its user to
    edit.  Everything else is as the file has it. *)
Definition sram_config_with (word_size words_per_row num_words num_banks : Z)
  : list stmt :=
  [ Assign "word_size" (EInt word_size);
    Assign "words_per_row" (EInt words_per_row);
    Assign "num_words" (EInt num_words);
    Assign "num_banks" (EInt num_banks);
    Assign "num_rw_ports" (EInt 1);
    Assign "num_r_ports" (EInt 0);
    Assign "num_w_ports" (EInt 0);
    Assign "tech_name" (EStr "freepdk45");
    Assign "process_corners" (EList [EStr "TT"]);
    Assign "supply_voltages" (EList [EFloat 1.8]);
    Assign "temperatures" (EList [EInt 25]);
    Assign "output_path" (EStr "output");
    Assign "output_name" output_name_expr;
    Assign "analytical_delay" (EBool true);
    Assign "nominal_corner_only" (EBool true) ].

(** The module as shipped. *)
Definition sram_config : list stmt := sram_config_with 32 4 1024 1.

(** The bindings the module body makes, written out as updates of the
    namespace [ρ] it starts from. *)
Definition sram_bindings (word_size words_per_row num_words num_banks : Z)
  (ρ : env) : env :=
  <["nominal_corner_only" := VBool true]>
  (<["analytical_delay" := VBool true]>
  (<["output_name" :=
       VStr ("sram_" +:+ format_int word_size +:+ "x" +:+
             format_int num_words +:+ "_" +:+ format_int num_banks +:+
             "bank")]>
  (<["output_path" := VStr "output"]>
  (<["temperatures" := VList [VInt 25]]>
  (<["supply_voltages" := VList [VFloat 1.8]]>
  (<["process_corners" := VList [VStr "TT"]]>
  (<["tech_name" := VStr "freepdk45"]>
  (<["num_w_ports" := VInt 0]>
  (<["num_r_ports" := VInt 0]>
  (<["num_rw_ports" := VInt 1]>
  (<["num_banks" := VInt num_banks]>
  (<["num_words" := VInt num_words]>
  (<["words_per_row" := VInt words_per_row]>
  (<["word_size" := VInt word_size]> ρ)))))))))))))).

(** The namespace of the module as shipped, once loaded. *)
Definition sram_namespace : env := sram_bindings 32 4 1024 1 ∅.

(** ** Vocabulary of the specification *)

(** Reading a decimal numeral back, to pin down what [format_int] writes:
    an optional minus sign followed by digits, most significant first. *)
Definition digit_value (c : ascii) : option N :=
  let n := N_of_ascii c in
  if decide (48 ≤ n ≤ 57)%N then Some (n - 48)%N else None.

Fixpoint parse_digits (acc : N) (s : string) : option N :=
  match s with
  | EmptyString => Some acc
  | String c s => d ← digit_value c; parse_digits (acc * 10 + d)%N s
  end.

Definition parse_int (s : string) : option Z :=
  match s with
  | String c s' =>
      if decide (c = "-"%char) then (λ n, - Z.of_N n) <$> parse_digits 0 s'
      else Z.of_N <$> parse_digits 0 s
  | EmptyString => None
  end.

(** Two namespaces agree on a list of names. *)
Definition agree_on (X : list string) (ρ1 ρ2 : env) : Prop :=
  ∀ x, x ∈ X → ρ1 !! x = ρ2 !! x.

(** Every statement reads only names in [D] or names assigned by an
    earlier statement of the body. *)
Fixpoint reads_closed (D : list string) (body : list stmt) : Prop :=
  match body with
  | [] => True
  | Assign x e :: body => names_read e ⊆ D ∧ reads_closed (x :: D) body
  end.

(** The value of an integer-valued field. *)
Definition int_field (ρ : env) (x : string) : option Z :=
  match ρ !! x with
  | Some (VInt n) => Some n
  | _ => None
  end.

(** Field [x] holds an integer that satisfies [P]. *)
Definition int_field_sat (P : Z → Prop) (ρ : env) (x : string) : Prop :=
  ∃ n, int_field ρ x = Some n ∧ P n.

(** The triples the data model calls valid: positive width and depth, one
    or two banks. *)
Definition valid_triple (word_size num_words num_banks : Z) : Prop :=
  0 < word_size ∧ 0 < num_words ∧ (num_banks = 1 ∨ num_banks = 2).

(** The constraints the data model documents for the integer fields. *)
Definition data_model_constraints (ρ : env) : Prop :=
  int_field_sat (λ n, 0 < n) ρ "word_size" ∧
  int_field_sat (λ n, 0 < n) ρ "words_per_row" ∧
  int_field_sat (λ n, 0 < n) ρ "num_words" ∧
  int_field_sat (λ n, n = 1 ∨ n = 2) ρ "num_banks" ∧
  int_field_sat (λ n, 0 ≤ n) ρ "num_rw_ports" ∧
  int_field_sat (λ n, 0 ≤ n) ρ "num_r_ports" ∧
  int_field_sat (λ n, 0 ≤ n) ρ "num_w_ports".

(** The field names of the data model, in the order it lists them. *)
Definition data_model_fields : list string :=
  [ "word_size"; "words_per_row"; "num_words"; "num_banks";
    "num_rw_ports"; "num_r_ports"; "num_w_ports"; "tech_name";
    "process_corners"; "supply_voltages"; "temperatures"; "output_path";
    "output_name"; "analytical_delay"; "nominal_corner_only" ]%string.

(** Total number of ports of a configuration. *)
Definition total_ports (ρ : env) : option Z :=
  rw ← int_field ρ "num_rw_ports";
  r ← int_field ρ "num_r_ports";
  w ← int_field ρ "num_w_ports";
  Some (rw + r + w).

(** A path is absolute when it starts at the root directory. *)
Definition isabs (s : string) : bool :=
  match s with
  | String "/" _ => true
  | _ => false
  end.

(** Every string a value holds, list items included. *)
Fixpoint strings_of (v : value) : list string :=
  match v with
  | VStr s => [s]
  | VList vs => flat_map strings_of vs
  | VInt _ | VFloat _ | VBool _ => []
  end.

(** No string of the value is an absolute path. *)
Definition no_absolute_path (v : value) : Prop :=
  Forall (λ s, isabs s = false) (strings_of v).

(** ** Vocabulary of the further properties *)

(** The assignment of line 35, the only one that reads names. *)
Definition output_name_stmt : stmt := Assign "output_name" output_name_expr.

(** The names its replacement fields read, in the order they are read. *)
Definition interpolated_names : list string :=
  ["word_size"; "num_words"; "num_banks"]%string.

(** The text [output_name] holds for the three values interpolated. *)
Definition output_name_text (ws nw nb : Z) : string :=
  "sram_" +:+ format_int ws +:+ "x" +:+ format_int nw +:+ "_" +:+
  format_int nb +:+ "bank".

(** Every character of a string passes the test [p]. *)
Fixpoint all_chars (p : ascii → bool) (s : string) : bool :=
  match s with
  | EmptyString => true
  | String c s => p c && all_chars p s
  end.

Definition is_digit (c : ascii) : bool :=
  bool_decide (48 ≤ N_of_ascii c ≤ 57)%N.

(** The characters of a decimal numeral: digits and the minus sign. *)
Definition numeral_char (c : ascii) : bool :=
  is_digit c || bool_decide (c = "-"%char).

Definition is_lower (c : ascii) : bool :=
  bool_decide (97 ≤ N_of_ascii c ≤ 122)%N.

(** Characters of a plain file name: numeral characters, lower-case
    letters and the underscore. *)
Definition name_char (c : ascii) : bool :=
  numeral_char c || is_lower c || bool_decide (c = "_"%char).

(** Characters that separate the components of a path: the slash
    (code 47) and the backslash (code 92). *)
Definition path_separator (c : ascii) : bool :=
  bool_decide (N_of_ascii c = 47)%N || bool_decide (N_of_ascii c = 92)%N.

(** * Properties *)

(** ** Running the module *)

Lemma eval_output_name (ρ : env) (ws nw nb : Z) :
  ρ !! "word_size" = Some (VInt ws) →
  ρ !! "num_words" = Some (VInt nw) →
  ρ !! "num_banks" = Some (VInt nb) →
  eval ρ output_name_expr =
    Ok (VStr ("sram_" +:+ format_int ws +:+ "x" +:+ format_int nw +:+
              "_" +:+ format_int nb +:+ "bank")).
Proof.
  intros Hws Hnw Hnb.
  unfold output_name_expr. cbn [eval eval_fstring].
  unfold lookup_name. rewrite Hws, Hnw, Hnb.
  cbn [format_value mbind result_bind]. reflexivity.
Qed.

Lemma exec_sram_config_with (ws wpr nw nb : Z) (ρ : env) :
  exec_stmts (sram_config_with ws wpr nw nb) ρ =
    Ok (sram_bindings ws wpr nw nb ρ).
Proof.
  unfold sram_config_with.
  cbn [exec_stmts exec_stmt eval mbind result_bind].
  erewrite eval_output_name.
  - reflexivity.
  - by simplify_map_eq.
  - by simplify_map_eq.
  - by simplify_map_eq.
Qed.

Lemma load_sram_config_with (ws wpr nw nb : Z) :
  load (sram_config_with ws wpr nw nb) = Ok (sram_bindings ws wpr nw nb ∅).
Proof. apply exec_sram_config_with. Qed.

Lemma load_sram_config : load sram_config = Ok sram_namespace.
Proof. apply load_sram_config_with. Qed.

(** The error path of the fragment is real: the interpolation alone, with
    none of the assignments before it, stops at the first unbound name. *)
Example output_name_alone_raises :
  load [Assign "output_name" output_name_expr] = Raise (NameError "word_size").
Proof. reflexivity. Qed.

Example format_int_samples :
  format_int 1024 = "1024"%string ∧ format_int 0 = "0"%string ∧
  format_int (-7) = "-7"%string.
Proof. repeat split. Qed.

(** ** The text of an integer *)

Lemma digit_value_char (d : N) :
  (d < 10)%N → digit_value (pretty_N_char d) = Some d.
Proof.
  intros Hd.
  assert (d = 0 ∨ d = 1 ∨ d = 2 ∨ d = 3 ∨ d = 4 ∨ d = 5 ∨ d = 6 ∨ d = 7
          ∨ d = 8 ∨ d = 9)%N as Hcases by lia.
  destruct_or!; subst; reflexivity.
Qed.

Lemma parse_digits_go (x : N) (s : string) :
  parse_digits 0 (pretty_N_go x s) = parse_digits x s.
Proof.
  revert s. induction (N.lt_wf_0 x) as [x _ IH]; intros s.
  assert (x = 0 ∨ 0 < x)%N as [->|Hpos] by lia.
  - by rewrite pretty_N_go_0.
  - rewrite pretty_N_go_step by done.
    rewrite IH by (by apply N.div_lt).
    cbn [parse_digits].
    rewrite digit_value_char by (by apply N.mod_lt).
    cbn [mbind option_bind]. f_equal.
    rewrite (N.div_mod x 10) at 3 by done. lia.
Qed.

Lemma parse_digits_pretty (x : N) : parse_digits 0 (pretty x) = Some x.
Proof.
  unfold pretty, pretty_N. case_decide as Hx.
  - by subst.
  - by rewrite parse_digits_go.
Qed.

(** X6: [format_int] writes the decimal numeral of its argument: reading
    the text back gives the integer. *)
Lemma parse_format_int (n : Z) : parse_int (format_int n) = Some n.
Proof.
  unfold format_int, pretty, pretty_Z. destruct n as [|p|p].
  - reflexivity.
  - change (pretty p) with (pretty (Npos p)).
    pose proof (parse_digits_pretty (Npos p)) as Hp.
    unfold parse_int. destruct (pretty (Npos p)) as [|c s'] eqn:Heq.
    + unfold pretty, pretty_N in Heq. case_decide; [done|].
      by destruct (pretty_N_go_ne_0 (N.pos p) "").
    + case_decide as Hc.
      * subst c. unfold pretty, pretty_N in Heq. case_decide; [done|].
        by destruct (pretty_N_go_ne_dash (N.pos p) "" s').
      * by rewrite Hp.
  - change (pretty p) with (pretty (Npos p)).
    change ("-" +:+ pretty (N.pos p))%string
      with (String "-" (pretty (N.pos p))).
    cbn [parse_int]. rewrite decide_True by done.
    by rewrite parse_digits_pretty.
Qed.

(** ** Prefixes of a run *)

Lemma exec_stmts_app (l1 l2 : list stmt) (ρ : env) :
  exec_stmts (l1 ++ l2) ρ = ρ' ← exec_stmts l1 ρ; exec_stmts l2 ρ'.
Proof.
  revert ρ. induction l1 as [|s l1 IH]; intros ρ; [reflexivity|].
  cbn [app exec_stmts]. destruct (exec_stmt ρ s) as [ρ1|e]; [|reflexivity].
  apply IH.
Qed.

(** [run n] is the execution of the first [n] statements. *)
Lemma run_take_drop (n : nat) (body : list stmt) (ρ : env) :
  run n ρ body = ρ' ← exec_stmts (take n body) ρ; Ok (ρ', drop n body).
Proof.
  revert ρ body. induction n as [|n IH]; intros ρ [|s body]; try reflexivity.
  cbn [run take drop exec_stmts].
  destruct (exec_stmt ρ s) as [ρ1|e]; [|reflexivity].
  apply IH.
Qed.

(** A run that completes passed through every one of its prefixes. *)
Lemma run_succeeds (n : nat) (body : list stmt) (ρ ρ' : env) :
  exec_stmts body ρ = Ok ρ' → ∃ c, run n ρ body = Ok c.
Proof.
  intros Hex. rewrite run_take_drop.
  rewrite <- (take_drop n body), exec_stmts_app in Hex.
  destruct (exec_stmts (take n body) ρ) as [ρ1|e]; [|discriminate].
  eexists. reflexivity.
Qed.

Lemma run_split (i d : nat) (body : list stmt) (ρ : env) :
  run (i + d) ρ body = c ← run i ρ body; run d c.1 c.2.
Proof.
  revert ρ body. induction i as [|i IH]; intros ρ body.
  - reflexivity.
  - destruct body as [|s body]; cbn [Nat.add run].
    + destruct d; reflexivity.
    + destruct (exec_stmt ρ s) as [ρ1|e]; [|reflexivity]. apply IH.
Qed.

(** A step leaves every name alone that no remaining statement assigns. *)
Lemma run_preserves (d : nat) (body k : list stmt) (ρ ρ' : env) (x : string) :
  run d ρ body = Ok (ρ', k) → x ∉ targets body → ρ' !! x = ρ !! x.
Proof.
  revert ρ body. induction d as [|d IH]; intros ρ [|[y e] body] Hrun Hx;
    cbn [run] in Hrun; try (by inversion Hrun).
  cbn [exec_stmt] in Hrun.
  destruct (eval ρ e) as [v|err]; [|discriminate].
  cbn [mbind result_bind] in Hrun.
  cbn [targets fmap list_fmap stmt_target] in Hx.
  apply not_elem_of_cons in Hx as [Hne Hx].
  rewrite (IH _ _ Hrun Hx). by apply lookup_insert_ne.
Qed.

(** After [i] statements the body splits into the statements executed and
    those left, and the names bound are those of the start or assigned so
    far. *)
Lemma run_bound (i : nat) (body k : list stmt) (ρ ρ' : env) :
  run i ρ body = Ok (ρ', k) →
  ∃ done : list stmt, body = done ++ k ∧
    ∀ x, is_Some (ρ' !! x) → is_Some (ρ !! x) ∨ x ∈ targets done.
Proof.
  revert ρ body. induction i as [|i IH]; intros ρ [|[y e] body] Hrun;
    cbn [run] in Hrun; try (inversion Hrun; subst; exists []; by auto).
  cbn [exec_stmt] in Hrun.
  destruct (eval ρ e) as [v|err]; [|discriminate].
  cbn [mbind result_bind] in Hrun.
  destruct (IH _ _ Hrun) as (done & -> & Hdone).
  exists (Assign y e :: done). split; [reflexivity|].
  intros x Hx. cbn [targets fmap list_fmap stmt_target].
  destruct (Hdone x Hx) as [Hin|Hin].
  - destruct (decide (y = x)) as [->|Hne].
    + right. apply elem_of_cons. by left.
    + rewrite lookup_insert_ne in Hin by done. by left.
  - right. apply elem_of_cons. by right.
Qed.

(** In a body that assigns no name twice and starts from a namespace that
    binds none of its targets, a binding once made is never changed. *)
Lemma run_binding_stable (i j : nat) (body ki kj : list stmt)
    (ρ ρi ρj : env) (x : string) (v : value) :
  NoDup (targets body) →
  (∀ y, y ∈ targets body → ρ !! y = None) →
  (i ≤ j)%nat →
  run i ρ body = Ok (ρi, ki) →
  run j ρ body = Ok (ρj, kj) →
  ρi !! x = Some v → ρj !! x = Some v.
Proof.
  intros Hnd Hfresh Hij Hi Hj Hx.
  replace j with (i + (j - i))%nat in Hj by lia.
  rewrite run_split, Hi in Hj. cbn [mbind result_bind fst snd] in Hj.
  destruct (run_bound _ _ _ _ _ Hi) as (done & -> & Hdone).
  rewrite (run_preserves _ _ _ _ _ _ Hj); [done|].
  unfold targets in *. rewrite fmap_app in Hnd, Hfresh.
  apply NoDup_app in Hnd as (_ & Hdisj & _).
  intros Hin. destruct (Hdone x) as [[w Hw]|Hd]; [by eexists| |].
  - rewrite Hfresh in Hw; [discriminate|]. apply elem_of_app. by right.
  - by apply (Hdisj x).
Qed.

(** ** Dependence on the starting namespace *)

Lemma expr_nested_ind (P : expr → Prop) :
  (∀ n, P (EInt n)) → (∀ f, P (EFloat f)) → (∀ b, P (EBool b)) →
  (∀ s, P (EStr s)) → (∀ es, Forall P es → P (EList es)) →
  (∀ parts, P (EFString parts)) →
  ∀ e, P e.
Proof.
  intros Hint Hfloat Hbool Hstr Hlist Hfstr.
  fix IH 1. intros [n|f|b|s|es|parts].
  - apply Hint.
  - apply Hfloat.
  - apply Hbool.
  - apply Hstr.
  - apply Hlist.
    induction es as [|e es IHes]; constructor; [apply IH|apply IHes].
  - apply Hfstr.
Qed.

Lemma eval_fstring_agree (ρ1 ρ2 : env) (parts : list fpart) :
  agree_on (flat_map fpart_names parts) ρ1 ρ2 →
  eval_fstring ρ1 parts = eval_fstring ρ2 parts.
Proof.
  induction parts as [|[s|x] parts IH]; intros Hag; [reflexivity | |].
  - cbn [eval_fstring]. by rewrite IH.
  - cbn [eval_fstring]. unfold lookup_name.
    rewrite (Hag x) by (apply elem_of_cons; by left).
    rewrite IH; [reflexivity|].
    intros y Hy. apply Hag. apply elem_of_cons. by right.
Qed.

(** The value of an expression depends only on the names it reads. *)
Lemma eval_agree (ρ1 ρ2 : env) (e : expr) :
  agree_on (names_read e) ρ1 ρ2 → eval ρ1 e = eval ρ2 e.
Proof.
  induction e as [n|f|b|s|es IH|parts] using expr_nested_ind;
    intros Hag; try reflexivity.
  - cbn [eval]. f_equal.
    induction IH as [|e es He _ IHes]; [reflexivity|].
    cbn [names_read flat_map] in Hag.
    rewrite He, IHes; [reflexivity| |].
    + intros y Hy. apply Hag. apply elem_of_app. by right.
    + intros y Hy. apply Hag. apply elem_of_app. by left.
  - cbn [eval]. by rewrite (eval_fstring_agree ρ1 ρ2).
Qed.

(** Two runs of a closed body from namespaces that agree on [D] end the
    same way: both complete, with namespaces that agree on [D] and on
    every assigned name, or both raise the same exception. *)
Lemma exec_stmts_agree (body : list stmt) (D : list string) (ρ1 ρ2 : env) :
  reads_closed D body → agree_on D ρ1 ρ2 →
  match exec_stmts body ρ1, exec_stmts body ρ2 with
  | Ok ρ1', Ok ρ2' => agree_on (targets body ++ D) ρ1' ρ2'
  | Raise e1, Raise e2 => e1 = e2
  | _, _ => False
  end.
Proof.
  revert D ρ1 ρ2. induction body as [|[x e] body IH]; intros D ρ1 ρ2 Hcl Hag.
  - exact Hag.
  - destruct Hcl as [Hsub Hcl]. cbn [exec_stmts exec_stmt].
    rewrite (eval_agree ρ1 ρ2 e) by (intros y Hy; apply Hag, Hsub, Hy).
    destruct (eval ρ2 e) as [v|err]; [|reflexivity].
    cbn [mbind result_bind].
    assert (agree_on (x :: D) (<[x:=v]> ρ1) (<[x:=v]> ρ2)) as Hag'.
    { intros y Hy. destruct (decide (x = y)) as [->|Hne].
      - by rewrite !lookup_insert_eq.
      - rewrite !lookup_insert_ne by done. apply Hag.
        apply elem_of_cons in Hy as [->|Hy]; [done|exact Hy]. }
    specialize (IH _ _ _ Hcl Hag').
    destruct (exec_stmts body (<[x:=v]> ρ1)), (exec_stmts body (<[x:=v]> ρ2));
      try exact IH.
    intros y Hy. apply IH.
    cbn [targets fmap list_fmap stmt_target] in Hy.
    apply elem_of_app. apply elem_of_cons in Hy as [->|Hy].
    + right. apply elem_of_cons. by left.
    + apply elem_of_app in Hy as [Hy|Hy]; [by left|].
      right. apply elem_of_cons. by right.
Qed.

(** The shipped body reads nothing it has not assigned itself. *)
Lemma sram_config_with_closed (ws wpr nw nb : Z) :
  reads_closed [] (sram_config_with ws wpr nw nb).
Proof.
  cbn [reads_closed sram_config_with names_read output_name_expr
       flat_map fpart_names app].
  repeat split; try apply list_subseteq_nil.
  intros x Hx.
  repeat (apply elem_of_cons in Hx as [->|Hx];
          [repeat first [apply list_elem_of_here | apply list_elem_of_further]|]).
  by apply elem_of_nil in Hx.
Qed.
(** ** The loaded namespace *)

Lemma int_field_lookup (ρ : env) (x : string) (n : Z) :
  ρ !! x = Some (VInt n) → int_field ρ x = Some n.
Proof. intros H. unfold int_field. by rewrite H. Qed.

Lemma sram_bindings_dom (ws wpr nw nb : Z) :
  dom (sram_bindings ws wpr nw nb ∅) = list_to_set data_model_fields.
Proof.
  unfold sram_bindings, data_model_fields.
  rewrite !dom_insert_L, dom_empty_L. cbn [list_to_set foldr].
  set_solver.
Qed.

Lemma targets_sram_config_with (ws wpr nw nb : Z) :
  targets (sram_config_with ws wpr nw nb) = data_model_fields.
Proof. reflexivity. Qed.

Lemma NoDup_data_model_fields : NoDup data_model_fields.
Proof. compute_done. Qed.

(** Loading again into the namespace of a first load changes nothing. *)
Lemma sram_bindings_idem (ws wpr nw nb : Z) :
  sram_bindings ws wpr nw nb (sram_bindings ws wpr nw nb ∅) =
  sram_bindings ws wpr nw nb ∅.
Proof.
  set (ρ := sram_bindings ws wpr nw nb ∅).
  unfold sram_bindings at 1.
  repeat (rewrite (insert_id ρ) by (subst ρ; unfold sram_bindings; by simplify_map_eq)).
  reflexivity.
Qed.

Lemma sram_bindings_no_absolute_path (ws wpr nw nb : Z) :
  map_Forall (λ _ v, no_absolute_path v) (sram_bindings ws wpr nw nb ∅).
Proof.
  unfold sram_bindings.
  repeat (apply map_Forall_insert_2;
          [unfold no_absolute_path; cbn [strings_of flat_map app];
           repeat constructor|]).
  apply map_Forall_empty.
Qed.

(** ** The claims of the specification *)

(** C1: for every valid triple (word_size, num_words, num_banks) the
    loaded module binds [output_name] to the text "sram_", the decimal
    numeral of word_size, "x", the numeral of num_words, "_", the numeral
    of num_banks and "bank", joined in that order; with the shipped values
    32, 1024 and 1 this is "sram_32x1024_1bank". *)
Theorem C1_output_name_concatenation :
  (∀ ws wpr nw nb : Z, valid_triple ws nw nb →
     ∃ ρ : env, load (sram_config_with ws wpr nw nb) = Ok ρ ∧
       ρ !! "output_name" =
         Some (VStr ("sram_" +:+ format_int ws +:+ "x" +:+ format_int nw
                     +:+ "_" +:+ format_int nb +:+ "bank"))) ∧
  (∃ ρ : env, load sram_config = Ok ρ ∧
     ρ !! "output_name" = Some (VStr "sram_32x1024_1bank")).
Proof.
  split.
  - intros ws wpr nw nb _. eexists. split; [apply load_sram_config_with|].
    unfold sram_bindings. by simplify_map_eq.
  - eexists. split; [apply load_sram_config|]. vm_compute. reflexivity.
Qed.

Lemma C1_output_name_witness :
  valid_triple 32 1024 1 ∧
  ∃ ρ : env, load (sram_config_with 32 4 1024 1) = Ok ρ ∧
    ρ !! "output_name" = Some (VStr "sram_32x1024_1bank").
Proof.
  assert (valid_triple 32 1024 1) as Hvalid.
  { unfold valid_triple. split; [reflexivity|]. split; [reflexivity|]. left. reflexivity. }
  split; [exact Hvalid|].
  exact (proj1 C1_output_name_concatenation 32 4 1024 1 Hvalid).
Defined.

(** C2: after loading, all fifteen fields of the data model are bound,
    and the eleven fields whose defaults the specification lists hold
    exactly those literals. *)
Theorem C2_declared_defaults :
  ∃ ρ : env, load sram_config = Ok ρ ∧
    Forall (λ x, is_Some (ρ !! x)) data_model_fields ∧
    ρ !! "word_size" = Some (VInt 32) ∧
    ρ !! "words_per_row" = Some (VInt 4) ∧
    ρ !! "num_words" = Some (VInt 1024) ∧
    ρ !! "num_banks" = Some (VInt 1) ∧
    ρ !! "num_rw_ports" = Some (VInt 1) ∧
    ρ !! "tech_name" = Some (VStr "freepdk45") ∧
    ρ !! "process_corners" = Some (VList [VStr "TT"]) ∧
    ρ !! "supply_voltages" = Some (VList [VFloat 1.8]) ∧
    ρ !! "temperatures" = Some (VList [VInt 25]) ∧
    ρ !! "analytical_delay" = Some (VBool true) ∧
    ρ !! "nominal_corner_only" = Some (VBool true).
Proof.
  exists sram_namespace. split; [apply load_sram_config|]. split.
  - apply Forall_forall. intros x Hx. apply elem_of_dom.
    unfold sram_namespace. rewrite sram_bindings_dom.
    by apply elem_of_list_to_set.
  - repeat split; vm_compute; reflexivity.
Qed.

(** C3, as the code has it: loading binds exactly fifteen names, the
    fifteen fields of the data model, assigned in the order the data model
    lists them. *)
Theorem C3_fifteen_fields :
  ∃ ρ : env, load sram_config = Ok ρ ∧
    dom ρ = list_to_set data_model_fields ∧
    size (dom ρ) = 15%nat ∧
    targets sram_config = data_model_fields ∧
    length data_model_fields = 15%nat.
Proof.
  exists sram_namespace. split; [apply load_sram_config|].
  split; [apply sram_bindings_dom|].
  split; [|split; reflexivity].
  unfold sram_namespace. rewrite sram_bindings_dom.
  rewrite size_list_to_set by apply NoDup_data_model_fields. reflexivity.
Qed.

(** C3, as the specification words it, fails: the loaded module does not
    expose sixteen named fields. *)
Lemma C3_not_sixteen_fields :
  ¬ ∃ ρ : env, load sram_config = Ok ρ ∧ size (dom ρ) = 16%nat.
Proof.
  intros (ρ & Hload & Hsize).
  rewrite load_sram_config in Hload. injection Hload as <-.
  unfold sram_namespace in Hsize. rewrite sram_bindings_dom in Hsize.
  rewrite size_list_to_set in Hsize by apply NoDup_data_model_fields.
  discriminate Hsize.
Qed.

(** C4: the loaded values meet the documented constraints: word_size,
    words_per_row and num_words are positive integers, num_banks is the
    integer 1 or 2, and the three port counts are non-negative integers. *)
Theorem C4_data_model_constraints :
  ∃ ρ : env, load sram_config = Ok ρ ∧ data_model_constraints ρ.
Proof.
  exists sram_namespace. split; [apply load_sram_config|].
  unfold data_model_constraints, int_field_sat.
  repeat split; eexists; (split; [vm_compute; reflexivity|]);
    first [lia | by left].
Qed.

(** C5: loading never fails, whatever values the configurable block
    holds, and every prefix of the run completes.  [output_name] is
    produced at load time by interpolation: the first twelve statements
    leave it unbound and bind [word_size], [num_words] and [num_banks];
    the thirteenth evaluates the formatted string in that namespace, and
    the loaded module holds the result, which is "sram_", the numeral of
    [word_size], "x", the numeral of [num_words], "_", the numeral of
    [num_banks] and "bank".  It is the only field computed from other
    names: it is the only right-hand side that reads names (those three),
    and every other right-hand side has the same value in every
    namespace.  The run leaves behind the bindings of its fifteen targets
    and nothing else. *)
Theorem C5_load_never_fails :
  (∀ ws wpr nw nb : Z, ∃ ρ12 ρ13 ρ : env,
     run 12 ∅ (sram_config_with ws wpr nw nb) =
       Ok (ρ12, drop 12 (sram_config_with ws wpr nw nb)) ∧
     ρ12 !! "output_name" = None ∧
     ρ12 !! "word_size" = Some (VInt ws) ∧
     ρ12 !! "num_words" = Some (VInt nw) ∧
     ρ12 !! "num_banks" = Some (VInt nb) ∧
     eval ρ12 output_name_expr =
       Ok (VStr ("sram_" +:+ format_int ws +:+ "x" +:+ format_int nw
                 +:+ "_" +:+ format_int nb +:+ "bank")) ∧
     run 13 ∅ (sram_config_with ws wpr nw nb) =
       Ok (ρ13, drop 13 (sram_config_with ws wpr nw nb)) ∧
     ρ13 =
       <["output_name" :=
           VStr ("sram_" +:+ format_int ws +:+ "x" +:+ format_int nw
                 +:+ "_" +:+ format_int nb +:+ "bank")]> ρ12 ∧
     load (sram_config_with ws wpr nw nb) = Ok ρ ∧
     ρ !! "word_size" = Some (VInt ws) ∧
     ρ !! "num_words" = Some (VInt nw) ∧
     ρ !! "num_banks" = Some (VInt nb) ∧
     ρ !! "output_name" =
       Some (VStr ("sram_" +:+ format_int ws +:+ "x" +:+ format_int nw
                   +:+ "_" +:+ format_int nb +:+ "bank"))) ∧
  (∃ ρ : env, load sram_config = Ok ρ ∧
     ρ !! "output_name" = Some (VStr "sram_32x1024_1bank")) ∧
  (∀ n : nat, ∃ c : env * list stmt, run n ∅ sram_config = Ok c) ∧
  derived_fields sram_config = ["output_name"%string] ∧
  names_read output_name_expr =
    ["word_size"; "num_words"; "num_banks"]%string ∧
  Forall (λ s, stmt_target s = "output_name"%string ∨
               ∀ ρ : env, eval ρ (stmt_expr s) = eval ∅ (stmt_expr s))
         sram_config ∧
  (∃ ρ : env, load sram_config = Ok ρ ∧
     dom ρ = list_to_set (targets sram_config)).
Proof.
  split; [|split; [|split; [|split; [|split; [|split]]]]].
  - intros ws wpr nw nb.
    set (ρ12 := (<["output_path" := VStr "output"]>
                 (<["temperatures" := VList [VInt 25]]>
                 (<["supply_voltages" := VList [VFloat 1.8]]>
                 (<["process_corners" := VList [VStr "TT"]]>
                 (<["tech_name" := VStr "freepdk45"]>
                 (<["num_w_ports" := VInt 0]>
                 (<["num_r_ports" := VInt 0]>
                 (<["num_rw_ports" := VInt 1]>
                 (<["num_banks" := VInt nb]>
                 (<["num_words" := VInt nw]>
                 (<["words_per_row" := VInt wpr]>
                 (<["word_size" := VInt ws]> ∅)))))))))))) : env).
    assert (ρ12 !! "word_size" = Some (VInt ws)) as Hws
      by (subst ρ12; by simplify_map_eq).
    assert (ρ12 !! "num_words" = Some (VInt nw)) as Hnw
      by (subst ρ12; by simplify_map_eq).
    assert (ρ12 !! "num_banks" = Some (VInt nb)) as Hnb
      by (subst ρ12; by simplify_map_eq).
    pose proof (eval_output_name ρ12 ws nw nb Hws Hnw Hnb) as Hev.
    exists ρ12. eexists. exists (sram_bindings ws wpr nw nb ∅).
    split; [reflexivity|].
    split; [subst ρ12; by rewrite !lookup_insert_ne, lookup_empty by done|].
    split; [exact Hws|]. split; [exact Hnw|]. split; [exact Hnb|].
    split; [exact Hev|].
    split.
    { change 13%nat with (12 + 1)%nat. rewrite run_split.
      change (run 12 ∅ (sram_config_with ws wpr nw nb))
        with (Ok (ρ12, drop 12 (sram_config_with ws wpr nw nb))
              : result (env * list stmt)).
      cbn [mbind result_bind fst snd drop sram_config_with run exec_stmt].
      rewrite Hev. cbn [mbind result_bind]. reflexivity. }
    split; [reflexivity|].
    split; [apply load_sram_config_with|].
    unfold sram_bindings. repeat split; by simplify_map_eq.
  - eexists. split; [apply load_sram_config|]. vm_compute. reflexivity.
  - intros n. apply (run_succeeds n sram_config ∅ sram_namespace).
    apply load_sram_config.
  - vm_compute. reflexivity.
  - reflexivity.
  - unfold sram_config, sram_config_with.
    repeat (apply Forall_cons; split;
            [first [by left
                   | right; intros ρ; apply eval_agree;
                     intros x Hx; by apply elem_of_nil in Hx]|]).
    apply Forall_nil_2.
  - exists sram_namespace. split; [apply load_sram_config|].
    apply sram_bindings_dom.
Qed.

(** C6: loading a second time gives the same values as the first.  This
    holds when the body is executed again in the namespace the first load
    left, and more generally from any starting namespace: the run
    completes and every field has the value the first load gave it. *)
Theorem C6_reload_same_values :
  ∃ ρ1 : env, load sram_config = Ok ρ1 ∧
    exec_stmts sram_config ρ1 = Ok ρ1 ∧
    ∀ ρ0 : env, ∃ ρ2 : env,
      exec_stmts sram_config ρ0 = Ok ρ2 ∧
      agree_on (targets sram_config) ρ2 ρ1.
Proof.
  exists sram_namespace. split; [apply load_sram_config|]. split.
  - unfold sram_config. rewrite exec_sram_config_with.
    unfold sram_namespace. by rewrite sram_bindings_idem.
  - intros ρ0.
    pose proof (exec_stmts_agree sram_config [] ρ0 ∅
                  (sram_config_with_closed 32 4 1024 1)) as Hag.
    fold (load sram_config) in Hag. rewrite load_sram_config in Hag.
    destruct (exec_stmts sram_config ρ0) as [ρ2|e].
    + exists ρ2. split; [reflexivity|].
      intros x Hx. apply Hag.
      * intros y Hy. by apply elem_of_nil in Hy.
      * apply elem_of_app. by left.
    + exfalso. apply Hag. intros y Hy. by apply elem_of_nil in Hy.
Qed.

(** C7: every field is the target of exactly one assignment, and a
    binding, once made, is the same at every later point of the run and
    after it: nothing in the module reassigns a field. *)
Theorem C7_assigned_once_then_unchanged :
  NoDup (targets sram_config) ∧
  ∀ (i j : nat) (ρi ρj : env) (ki kj : list stmt) (x : string) (v : value),
    (i ≤ j)%nat →
    run i ∅ sram_config = Ok (ρi, ki) →
    run j ∅ sram_config = Ok (ρj, kj) →
    ρi !! x = Some v →
    ρj !! x = Some v.
Proof.
  split; [apply NoDup_data_model_fields|].
  intros i j ρi ρj ki kj x v Hij Hi Hj Hx.
  apply (run_binding_stable i j sram_config ki kj ∅ ρi ρj x v);
    try assumption.
  - apply NoDup_data_model_fields.
  - intros y _. apply lookup_empty.
Qed.

Lemma C7_assigned_once_witness :
  (1 ≤ 20)%nat ∧
  run 1 ∅ sram_config =
    Ok (<["word_size" := VInt 32]> ∅, drop 1 sram_config) ∧
  run 20 ∅ sram_config = Ok (sram_namespace, []) ∧
  (<["word_size" := VInt 32]> ∅ : env) !! "word_size" = Some (VInt 32) ∧
  sram_namespace !! "word_size" = Some (VInt 32).
Proof.
  assert (1 ≤ 20)%nat as Hle by lia.
  assert (run 1 ∅ sram_config =
            Ok (<["word_size" := VInt 32]> ∅, drop 1 sram_config)) as H1
    by reflexivity.
  assert (run 20 ∅ sram_config = Ok (sram_namespace, [])) as H20.
  { rewrite run_take_drop. change (take 20 sram_config) with sram_config.
    fold (load sram_config). rewrite load_sram_config. reflexivity. }
  assert ((<["word_size" := VInt 32]> ∅ : env) !! "word_size"
          = Some (VInt 32)) as Hx by (vm_compute; reflexivity).
  repeat (split; [assumption|]).
  exact (proj2 C7_assigned_once_then_unchanged 1%nat 20%nat _ _ _ _
           "word_size"%string (VInt 32) Hle H1 H20 Hx).
Defined.

(** C8: in the loaded module [num_r_ports] and [num_w_ports] are both 0,
    and the total port count is exactly 1, so it is not 0. *)
Theorem C8_total_ports_is_one :
  ∃ ρ : env, load sram_config = Ok ρ ∧
    int_field ρ "num_rw_ports" = Some 1 ∧
    int_field ρ "num_r_ports" = Some 0 ∧
    int_field ρ "num_w_ports" = Some 0 ∧
    total_ports ρ = Some 1 ∧
    total_ports ρ ≠ Some 0.
Proof.
  exists sram_namespace. split; [apply load_sram_config|].
  assert (total_ports sram_namespace = Some 1) as Htot
    by (vm_compute; reflexivity).
  repeat split; try (vm_compute; reflexivity).
  rewrite Htot. discriminate.
Qed.

(** C9: in the loaded module [words_per_row] is 4 and [num_words] is 1024;
    4 divides 1024 with remainder 0, giving 256 rows. *)
Theorem C9_words_per_row_divides_num_words :
  ∃ (ρ : env) (wpr nw : Z), load sram_config = Ok ρ ∧
    int_field ρ "words_per_row" = Some wpr ∧
    int_field ρ "num_words" = Some nw ∧
    wpr = 4 ∧ nw = 1024 ∧
    nw `mod` wpr = 0 ∧ (wpr | nw) ∧ nw `div` wpr = 256.
Proof.
  exists sram_namespace, 4, 1024. split; [apply load_sram_config|].
  repeat split; try (vm_compute; reflexivity).
  exists 256. reflexivity.
Qed.

(** C10: whatever the configurable block holds, loading binds
    [output_path] to the literal "output"; its right-hand side reads no
    name, so it is not among the derived fields; "output" is a relative
    path, and no string held by any field of the loaded module is an
    absolute path. *)
Theorem C10_output_path_literal_relative :
  (∀ ws wpr nw nb : Z, ∃ ρ : env,
     load (sram_config_with ws wpr nw nb) = Ok ρ ∧
     ρ !! "output_path" = Some (VStr "output") ∧
     map_Forall (λ _ v, no_absolute_path v) ρ) ∧
  (Assign "output_path" (EStr "output") ∈ sram_config) ∧
  names_read (EStr "output") = [] ∧
  ("output_path"%string ∉ derived_fields sram_config) ∧
  isabs "output" = false.
Proof.
  split; [|split; [|split; [|split]]].
  - intros ws wpr nw nb. eexists.
    split; [apply load_sram_config_with|]. split.
    + unfold sram_bindings. by simplify_map_eq.
    + apply sram_bindings_no_absolute_path.
  - unfold sram_config, sram_config_with.
    do 11 apply list_elem_of_further. apply list_elem_of_here.
  - reflexivity.
  - assert (derived_fields sram_config = ["output_name"%string]) as ->
      by (vm_compute; reflexivity).
    intros Hin. apply elem_of_cons in Hin as [Heq|Hin]; [discriminate|].
    by apply elem_of_nil in Hin.
  - reflexivity.
Qed.

(** ** Further properties: the text of [output_name] *)

Lemma all_chars_app (p : ascii → bool) (s t : string) :
  all_chars p (s +:+ t) = all_chars p s && all_chars p t.
Proof.
  induction s as [|c s IH]; [reflexivity|].
  change (String c s +:+ t)%string with (String c (s +:+ t)).
  cbn [all_chars]. by rewrite IH, andb_assoc.
Qed.

Lemma all_chars_mono (p q : ascii → bool) (s : string) :
  (∀ c, p c = true → q c = true) → all_chars p s = true → all_chars q s = true.
Proof.
  intros Hpq. induction s as [|c s IH]; [done|].
  cbn. rewrite !andb_true_iff. intros [? ?]. auto.
Qed.

Lemma pretty_N_char_digit (d : N) : is_digit (pretty_N_char d) = true.
Proof.
  assert (d = 0 ∨ d = 1 ∨ d = 2 ∨ d = 3 ∨ d = 4 ∨ d = 5 ∨ d = 6 ∨ d = 7
          ∨ d = 8 ∨ 9 ≤ d)%N as Hcases by lia.
  destruct_or!; subst; try reflexivity.
  unfold pretty_N_char. by repeat case_match.
Qed.

Lemma pretty_N_go_numeral (x : N) (s : string) :
  all_chars numeral_char s = true →
  all_chars numeral_char (pretty_N_go x s) = true.
Proof.
  revert s. induction (N.lt_wf_0 x) as [x _ IH]; intros s Hs.
  assert (x = 0 ∨ 0 < x)%N as [->|Hpos] by lia.
  - by rewrite pretty_N_go_0.
  - rewrite pretty_N_go_step by done. apply IH; [by apply N.div_lt|].
    cbn [all_chars]. rewrite Hs, andb_true_r.
    unfold numeral_char. by rewrite pretty_N_char_digit.
Qed.

Lemma format_int_numeral (n : Z) : all_chars numeral_char (format_int n) = true.
Proof.
  assert (∀ x : N, all_chars numeral_char (pretty x) = true) as HN.
  { intros x. unfold pretty, pretty_N. case_decide; [reflexivity|].
    by apply pretty_N_go_numeral. }
  unfold format_int, pretty, pretty_Z. destruct n as [|p|p].
  - reflexivity.
  - apply (HN (Npos p)).
  - change (pretty p) with (pretty (Npos p)).
    rewrite all_chars_app, (HN (Npos p)). reflexivity.
Qed.

(** A text is cut in one way only at a character that does not occur
    before the cut. *)
Lemma cut_unique (p : ascii → bool) (c : ascii) (a a' r r' : string) :
  p c = false → all_chars p a = true → all_chars p a' = true →
  a +:+ String c r = a' +:+ String c r' → a = a' ∧ r = r'.
Proof.
  intros Hc. revert a'.
  induction a as [|d a IH]; intros [|d' a'] Ha Ha' Heq;
    repeat match type of Heq with
    | context [(String ?x ?s +:+ ?t)%string] =>
        change (String x s +:+ t)%string with (String x (s +:+ t)) in Heq
    | context [(EmptyString +:+ ?t)%string] =>
        change (EmptyString +:+ t)%string with t in Heq
    end;
    cbn [all_chars] in Ha, Ha'.
  - by injection Heq as ->.
  - injection Heq as <- _. rewrite Hc in Ha'. discriminate.
  - injection Heq as -> _. rewrite Hc in Ha. discriminate.
  - injection Heq as -> Heq.
    apply andb_true_iff in Ha as [_ Ha]. apply andb_true_iff in Ha' as [_ Ha'].
    by destruct (IH a' Ha Ha' Heq) as [-> ->].
Qed.

Lemma output_name_text_inj (ws nw nb ws' nw' nb' : Z) :
  output_name_text ws nw nb = output_name_text ws' nw' nb' →
  ws = ws' ∧ nw = nw' ∧ nb = nb'.
Proof.
  unfold output_name_text. intros Heq.
  change ("sram_" +:+ ?t)%string with (String "s" (String "r" (String "a" (String "m" (String "_" t))))) in Heq.
  injection Heq as Heq.
  change ("x" +:+ ?t)%string with (String "x" t) in Heq.
  apply (cut_unique numeral_char) in Heq as [Hws Heq];
    [|reflexivity|apply format_int_numeral..].
  change ("_" +:+ ?t)%string with (String "_" t) in Heq.
  apply (cut_unique numeral_char) in Heq as [Hnw Heq];
    [|reflexivity|apply format_int_numeral..].
  change ("bank")%string with (String "b" "ank") in Heq.
  apply (cut_unique numeral_char) in Heq as [Hnb _];
    [|reflexivity|apply format_int_numeral..].
  unfold format_int in *.
  by apply (inj pretty) in Hws, Hnw, Hnb.
Qed.

Lemma output_name_text_chars (ws nw nb : Z) :
  all_chars name_char (output_name_text ws nw nb) = true.
Proof.
  assert (∀ n, all_chars name_char (format_int n) = true) as Hn.
  { intros n. apply (all_chars_mono numeral_char); [|apply format_int_numeral].
    intros c Hc. unfold name_char. by rewrite Hc. }
  unfold output_name_text. rewrite !all_chars_app, !Hn. reflexivity.
Qed.

(** ** Further properties: order and later assignments *)

Lemma exec_stmts_frame (l : list stmt) (ρ ρ' : env) (x : string) :
  exec_stmts l ρ = Ok ρ' → x ∉ targets l → ρ' !! x = ρ !! x.
Proof.
  intros Hex Hx.
  apply (run_preserves (length l) l [] ρ ρ' x); [|exact Hx].
  rewrite run_take_drop, firstn_all, drop_all, Hex. reflexivity.
Qed.

Lemma eval_literal (ρ : env) (e : expr) :
  names_read e = [] → eval ρ e = eval ∅ e.
Proof.
  intros Hlit. apply eval_agree. rewrite Hlit.
  intros x Hx. by apply elem_of_nil in Hx.
Qed.

(** In a run that completes and assigns no name twice, a statement whose
    right-hand side reads no name leaves its own value in the namespace. *)
Lemma exec_stmts_lookup_literal (l : list stmt) (ρ ρ' : env) (x : string) (e : expr) :
  NoDup (targets l) → exec_stmts l ρ = Ok ρ' →
  Assign x e ∈ l → names_read e = [] →
  ∃ v, eval ∅ e = Ok v ∧ ρ' !! x = Some v.
Proof.
  revert ρ. induction l as [|[y e'] l IH]; intros ρ Hnd Hex Hin Hlit.
  - by apply elem_of_nil in Hin.
  - cbn [targets fmap list_fmap stmt_target] in Hnd.
    apply NoDup_cons in Hnd as [Hy Hnd].
    cbn [exec_stmts exec_stmt] in Hex.
    destruct (eval ρ e') as [v'|err] eqn:Hev; [|discriminate].
    cbn [mbind result_bind] in Hex.
    apply elem_of_cons in Hin as [Heq|Hin].
    + injection Heq as <- <-. exists v'. split.
      * by rewrite <- (eval_literal ρ e Hlit).
      * rewrite (exec_stmts_frame _ _ _ _ Hex Hy). apply lookup_insert_eq.
    + by apply (IH _ Hnd Hex).
Qed.

(** Apart from the interpolation, every statement of the module is a
    literal whose value is the one the loaded namespace holds. *)
Lemma sram_config_stmt_cases (ws wpr nw nb : Z) (s : stmt) :
  s ∈ sram_config_with ws wpr nw nb →
  s = output_name_stmt ∨
  (names_read (stmt_expr s) = [] ∧
   ∃ v, eval ∅ (stmt_expr s) = Ok v ∧
        sram_bindings ws wpr nw nb ∅ !! stmt_target s = Some v).
Proof.
  unfold sram_config_with. intros Hin.
  repeat (apply elem_of_cons in Hin as [->|Hin];
          [first [by left
                 | right; split; [reflexivity|]; eexists;
                   split; [reflexivity|]; unfold sram_bindings;
                   by simplify_map_eq]|]).
  by apply elem_of_nil in Hin.
Qed.

(** Statements taken from the module, run from any namespace: every
    literal field ends up with the value the loaded module gives it. *)
Lemma module_stmts_lookup (ws wpr nw nb : Z) (l : list stmt) (ρ ρ' : env) (x : string) :
  NoDup (targets l) →
  (∀ s, s ∈ l → s ∈ sram_config_with ws wpr nw nb) →
  exec_stmts l ρ = Ok ρ' →
  x ∈ targets l → x ≠ "output_name"%string →
  ρ' !! x = sram_bindings ws wpr nw nb ∅ !! x.
Proof.
  intros Hnd Hsub Hex Hx Hne.
  apply list_elem_of_fmap in Hx as ([y e] & -> & Hin).
  destruct (sram_config_stmt_cases ws wpr nw nb _ (Hsub _ Hin))
    as [Heq|(Hlit & v & Hv & Hb)].
  - injection Heq as -> _. done.
  - destruct (exec_stmts_lookup_literal l ρ ρ' y e Hnd Hex Hin Hlit)
      as (v' & Hv' & Hlook).
    cbn [stmt_expr stmt_target] in *. congruence.
Qed.

(** Literal statements of the module never fail. *)
Lemma module_literals_succeed (ws wpr nw nb : Z) (l : list stmt) (ρ : env) :
  (∀ s, s ∈ l → s ∈ sram_config_with ws wpr nw nb) →
  "output_name"%string ∉ targets l →
  ∃ ρ', exec_stmts l ρ = Ok ρ'.
Proof.
  revert ρ. induction l as [|[y e] l IH]; intros ρ Hsub Hon.
  - by eexists.
  - cbn [targets fmap list_fmap stmt_target] in Hon.
    apply not_elem_of_cons in Hon as [Hne Hon].
    destruct (sram_config_stmt_cases ws wpr nw nb (Assign y e))
      as [Heq|(Hlit & v & Hv & _)].
    + apply Hsub, list_elem_of_here.
    + injection Heq as -> _. done.
    + cbn [stmt_expr] in Hlit, Hv.
      cbn [exec_stmts exec_stmt]. rewrite (eval_literal ρ e Hlit), Hv.
      cbn [mbind result_bind]. apply IH; [|exact Hon].
      intros s Hs. apply Hsub. by apply list_elem_of_further.
Qed.

(** X3: the assignments of the module may be written in any order.  If the
    interpolation comes after the assignments of the three names it reads,
    loading gives the namespace of the original order; otherwise loading
    raises [NameError] for the first of [word_size], [num_words],
    [num_banks] not yet assigned. *)
Theorem output_name_after_its_inputs (ws wpr nw nb : Z) (l1 l2 : list stmt) :
  l1 ++ output_name_stmt :: l2 ≡ₚ sram_config_with ws wpr nw nb →
  load (l1 ++ output_name_stmt :: l2) =
    match head (filter (λ y, y ∉ targets l1) interpolated_names) with
    | None => Ok (sram_bindings ws wpr nw nb ∅)
    | Some x => Raise (NameError x)
    end.
Proof.
  intros Hperm.
  set (body := l1 ++ output_name_stmt :: l2) in *.
  assert (NoDup (targets body)) as Hnd.
  { unfold targets. rewrite Hperm. apply NoDup_data_model_fields. }
  assert (∀ s, s ∈ body → s ∈ sram_config_with ws wpr nw nb) as Hsub.
  { intros s Hs. by rewrite <- Hperm. }
  assert (targets body = targets l1 ++ "output_name"%string :: targets l2)
    as Htg by (subst body; unfold targets; by rewrite fmap_app).
  rewrite Htg in Hnd.
  apply NoDup_app in Hnd as (Hnd1 & Hdisj & Hnd2).
  apply NoDup_cons in Hnd2 as [Hon2 Hnd2].
  assert ("output_name"%string ∉ targets l1) as Hon1.
  { intros Hin. apply (Hdisj _ Hin), list_elem_of_here. }
  assert (∀ s, s ∈ l1 → s ∈ sram_config_with ws wpr nw nb) as Hsub1.
  { intros s Hs. apply Hsub. subst body. apply elem_of_app. by left. }
  assert (∀ s, s ∈ l2 → s ∈ sram_config_with ws wpr nw nb) as Hsub2.
  { intros s Hs. apply Hsub. subst body. apply elem_of_app. right.
    by apply list_elem_of_further. }
  destruct (module_literals_succeed ws wpr nw nb l1 ∅ Hsub1 Hon1) as [ρ1 H1].
  assert (∀ x, x ∈ targets l1 → x ≠ "output_name"%string →
            ρ1 !! x = sram_bindings ws wpr nw nb ∅ !! x) as Hin1.
  { intros x. by apply (module_stmts_lookup ws wpr nw nb l1 ∅ ρ1 x). }
  assert (∀ x, x ∉ targets l1 → ρ1 !! x = None) as Hout1.
  { intros x Hx. rewrite (exec_stmts_frame _ _ _ _ H1 Hx). apply lookup_empty. }
  unfold load. subst body. rewrite exec_stmts_app, H1.
  cbn [mbind result_bind exec_stmts exec_stmt output_name_stmt].
  unfold interpolated_names. rewrite !filter_cons, filter_nil.
  unfold output_name_expr at 1. cbn [eval eval_fstring]. unfold lookup_name.
  destruct (decide ("word_size"%string ∉ targets l1)) as [Hws|Hws].
  { by rewrite (Hout1 _ Hws). }
  apply dec_stable in Hws. rewrite (Hin1 _ Hws) by done.
  replace (sram_bindings ws wpr nw nb ∅ !! "word_size"%string)
    with (Some (VInt ws)) by (unfold sram_bindings; by simplify_map_eq).
  cbn [mbind result_bind format_value].
  destruct (decide ("num_words"%string ∉ targets l1)) as [Hnw|Hnw].
  { by rewrite (Hout1 _ Hnw). }
  apply dec_stable in Hnw. rewrite (Hin1 _ Hnw) by done.
  replace (sram_bindings ws wpr nw nb ∅ !! "num_words"%string)
    with (Some (VInt nw)) by (unfold sram_bindings; by simplify_map_eq).
  cbn [mbind result_bind format_value].
  destruct (decide ("num_banks"%string ∉ targets l1)) as [Hnb|Hnb].
  { by rewrite (Hout1 _ Hnb). }
  apply dec_stable in Hnb. rewrite (Hin1 _ Hnb) by done.
  replace (sram_bindings ws wpr nw nb ∅ !! "num_banks"%string)
    with (Some (VInt nb)) by (unfold sram_bindings; by simplify_map_eq).
  cbn [mbind result_bind format_value head].
  set (v := VStr _).
  destruct (module_literals_succeed ws wpr nw nb l2 (<["output_name":=v]> ρ1)
              Hsub2 Hon2) as [ρ3 H3].
  rewrite H3. f_equal. apply map_eq. intros x.
  destruct (decide (x ∈ targets l2)) as [Hx2|Hx2].
  { apply (module_stmts_lookup ws wpr nw nb l2 (<["output_name":=v]> ρ1) ρ3 x);
      try done.
    intros ->. done. }
  rewrite (exec_stmts_frame _ _ _ _ H3 Hx2).
  destruct (decide (x = "output_name"%string)) as [->|Hxon].
  { rewrite lookup_insert_eq. unfold sram_bindings. by simplify_map_eq. }
  rewrite lookup_insert_ne by done.
  destruct (decide (x ∈ targets l1)) as [Hx1|Hx1].
  { by apply Hin1. }
  rewrite (Hout1 _ Hx1). symmetry. apply not_elem_of_dom.
  rewrite sram_bindings_dom, elem_of_list_to_set.
  rewrite <- (targets_sram_config_with ws wpr nw nb).
  unfold targets. rewrite <- Hperm, fmap_app.
  cbn [fmap list_fmap stmt_target output_name_stmt].
  intros Hin. apply elem_of_app in Hin as [Hin|Hin]; [done|].
  apply elem_of_cons in Hin as [Hin|Hin]; done.
Qed.

Lemma output_name_after_its_inputs_witness :
  (take 12 sram_config ++ drop 13 sram_config) ++ output_name_stmt :: []
    ≡ₚ sram_config ∧
  load ((take 12 sram_config ++ drop 13 sram_config)
        ++ output_name_stmt :: []) = Ok sram_namespace ∧
  [] ++ output_name_stmt :: (take 12 sram_config ++ drop 13 sram_config)
    ≡ₚ sram_config ∧
  load ([] ++ output_name_stmt :: (take 12 sram_config ++ drop 13 sram_config))
    = Raise (NameError "word_size").
Proof.
  assert ((take 12 sram_config ++ drop 13 sram_config)
            ++ output_name_stmt :: [] ≡ₚ sram_config) as Hlast.
  { rewrite <- (take_drop 12 sram_config) at 3.
    rewrite <- (assoc_L (++)). apply Permutation_app_head.
    change (drop 12 sram_config)
      with (output_name_stmt :: drop 13 sram_config).
    symmetry. apply Permutation_cons_append. }
  assert ([] ++ output_name_stmt ::
            (take 12 sram_config ++ drop 13 sram_config) ≡ₚ sram_config)
    as Hfirst.
  { rewrite <- (take_drop 12 sram_config) at 3.
    change (drop 12 sram_config)
      with (output_name_stmt :: drop 13 sram_config).
    apply Permutation_middle. }
  split; [exact Hlast|]. split.
  - exact (output_name_after_its_inputs 32 4 1024 1 _ _ Hlast).
  - split; [exact Hfirst|].
    exact (output_name_after_its_inputs 32 4 1024 1 _ _ Hfirst).
Defined.

(** X4: let further assignment statements follow the module body, with
    right-hand sides of the forms modelled here: literals, list displays,
    and formatted strings that interpolate names bound to integers,
    strings or booleans.  If they complete and none of them assigns
    [output_name], then [output_name] still holds the text computed from
    the values the three names had when line 35 ran: a later assignment
    to [word_size], [num_words] or [num_banks] does not reach it.
    Statements of other kinds are outside this statement. *)
Theorem output_name_not_recomputed (ws wpr nw nb : Z) (k : list stmt) (ρ' : env) :
  "output_name"%string ∉ targets k →
  exec_stmts (sram_config_with ws wpr nw nb ++ k) ∅ = Ok ρ' →
  ρ' !! "output_name" = Some (VStr (output_name_text ws nw nb)).
Proof.
  intros Hk Hex.
  rewrite exec_stmts_app, exec_sram_config_with in Hex.
  cbn [mbind result_bind] in Hex.
  rewrite (exec_stmts_frame _ _ _ _ Hex Hk).
  unfold sram_bindings, output_name_text. by simplify_map_eq.
Qed.

Lemma output_name_not_recomputed_witness :
  ("output_name"%string ∉ targets [Assign "word_size" (EInt 64)]) ∧
  exec_stmts (sram_config_with 32 4 1024 1 ++ [Assign "word_size" (EInt 64)]) ∅
    = Ok (<["word_size" := VInt 64]> sram_namespace) ∧
  (<["word_size" := VInt 64]> sram_namespace : env) !! "word_size"
    = Some (VInt 64) ∧
  (<["word_size" := VInt 64]> sram_namespace : env) !! "output_name"
    = Some (VStr "sram_32x1024_1bank").
Proof.
  assert ("output_name"%string ∉ targets [Assign "word_size" (EInt 64)])
    as Hk.
  { intros Hin. apply elem_of_cons in Hin as [Heq|Hin]; [discriminate|].
    by apply elem_of_nil in Hin. }
  assert (exec_stmts (sram_config_with 32 4 1024 1
                        ++ [Assign "word_size" (EInt 64)]) ∅
          = Ok (<["word_size" := VInt 64]> sram_namespace)) as Hex.
  { rewrite exec_stmts_app, exec_sram_config_with. reflexivity. }
  split; [exact Hk|]. split; [exact Hex|].
  split; [vm_compute; reflexivity|].
  exact (output_name_not_recomputed 32 4 1024 1 _ _ Hk Hex).
Defined.

(** X5: executed in any namespace, the module body completes and leaves every
    name other than its fifteen targets bound, or unbound, as it was. *)
Theorem foreign_names_untouched (ws wpr nw nb : Z) (ρ0 : env) (x : string) :
  x ∉ data_model_fields →
  ∃ ρ' : env, exec_stmts (sram_config_with ws wpr nw nb) ρ0 = Ok ρ' ∧
    ρ' !! x = ρ0 !! x.
Proof.
  intros Hx. exists (sram_bindings ws wpr nw nb ρ0).
  split; [apply exec_sram_config_with|].
  apply (exec_stmts_frame (sram_config_with ws wpr nw nb)).
  - apply exec_sram_config_with.
  - by rewrite targets_sram_config_with.
Qed.

Lemma foreign_names_untouched_witness :
  ("__name__"%string ∉ data_model_fields) ∧
  ∃ ρ' : env,
    exec_stmts sram_config {["__name__"%string := VStr "sram_config"]} = Ok ρ' ∧
    ρ' !! "__name__" = Some (VStr "sram_config").
Proof.
  assert ("__name__"%string ∉ data_model_fields) as Hx.
  { unfold data_model_fields. intros Hin.
    repeat (apply elem_of_cons in Hin as [Heq|Hin]; [discriminate|]).
    by apply elem_of_nil in Hin. }
  split; [exact Hx|].
  exact (foreign_names_untouched 32 4 1024 1
           {["__name__"%string := VStr "sram_config"]} "__name__" Hx).
Defined.

(** X1: two configurations get the same [output_name] exactly when they agree
    on [word_size], [num_words] and [num_banks]: distinct triples never
    share a name, and [words_per_row] plays no part in it. *)
Theorem output_name_determines_triple (ws wpr nw nb ws' wpr' nw' nb' : Z) :
  ∃ ρ ρ' : env,
    load (sram_config_with ws wpr nw nb) = Ok ρ ∧
    load (sram_config_with ws' wpr' nw' nb') = Ok ρ' ∧
    (ρ !! "output_name" = ρ' !! "output_name" ↔
     ws = ws' ∧ nw = nw' ∧ nb = nb').
Proof.
  exists (sram_bindings ws wpr nw nb ∅), (sram_bindings ws' wpr' nw' nb' ∅).
  split; [apply load_sram_config_with|].
  split; [apply load_sram_config_with|].
  assert (∀ a b c d, sram_bindings a b c d ∅ !! "output_name"
                     = Some (VStr (output_name_text a c d))) as Hlook.
  { intros. unfold sram_bindings, output_name_text. by simplify_map_eq. }
  rewrite !Hlook. split.
  - intros Heq. apply output_name_text_inj. congruence.
  - by intros (-> & -> & ->).
Qed.

(** X2: whatever integers the configurable block holds, [output_name] is made
    of digits, minus signs, lower-case letters and underscores only; in
    particular it contains no path separator. *)
Theorem output_name_is_plain_file_name (ws wpr nw nb : Z) :
  ∃ (ρ : env) (s : string),
    load (sram_config_with ws wpr nw nb) = Ok ρ ∧
    ρ !! "output_name" = Some (VStr s) ∧
    all_chars name_char s = true ∧
    all_chars (λ c, negb (path_separator c)) s = true.
Proof.
  exists (sram_bindings ws wpr nw nb ∅), (output_name_text ws nw nb).
  split; [apply load_sram_config_with|]. split.
  { unfold sram_bindings, output_name_text. by simplify_map_eq. }
  pose proof (output_name_text_chars ws nw nb) as Hchars.
  split; [exact Hchars|].
  apply (all_chars_mono name_char); [|exact Hchars].
  intros c Hc. unfold name_char, numeral_char, is_digit, is_lower in Hc.
  unfold path_separator.
  destruct (bool_decide (N_of_ascii c = 47)%N) eqn:H47.
  { apply bool_decide_eq_true in H47.
    assert (c = "/"%char) as -> by (by rewrite <- (ascii_N_embedding c), H47).
    discriminate Hc. }
  destruct (bool_decide (N_of_ascii c = 92)%N) eqn:H92; [|reflexivity].
  apply bool_decide_eq_true in H92.
  assert (c = ascii_of_N 92) as -> by (by rewrite <- (ascii_N_embedding c), H92).
  discriminate Hc.
Qed.
